(** * go-simplejson: a dynamic accessor over decoded JSON values

    A shallow embedding of [simplejson.go] and the properties of its
    navigation, coercion and loading functions.

    Modelling choices, all taken from the Go source:
    - [interface{}] is the inductive [value]; its constructors are the
      dynamic types the source inspects with type assertions and type
      switches.
    - A Go map is a reference: [VMap (Some l)] points into a [heap] of map
      contents, [VMap None] is the nil map of type
      [map[string]interface{}].  [Set] and [Delete] update the heap, so all
      wrappers that share the location see the change.
    - A [*Json] is an option: [None] is the nil pointer.  The methods
      below only read the [data] field of their receiver, so a receiver
      is the [Json] struct it points to.
    - A run-time panic is an explicit outcome, [Panics].
    - [int] is the 64-bit integer of the usual targets. *)

From Stdlib Require Import ZArith List Ascii String SpecFloat.
From stdpp Require Import base option gmap strings list fin_maps.

Set Warnings "-register-all".
Open Scope Z_scope.

(** ** Outcomes of Go calls *)

(** A call either returns or panics with a run-time error. *)
Inductive outcome (A : Type) : Type :=
| Returns (a : A)
| Panics (msg : string).
Arguments Returns {A} a.
Arguments Panics {A} msg.

Definition bind_outcome {A B : Type} (o : outcome A) (k : A -> outcome B)
  : outcome B :=
  match o with
  | Returns a => k a
  | Panics msg => Panics msg
  end.

(** The [error] values the source creates or passes on.  The errors of
    the codec and of the file system are values of their own types, never
    one made by errors.New here. *)
Inductive error : Type :=
| ErrorNew (msg : string)       (* errors.New(msg) *)
| ErrorExternal (msg : string). (* an error of encoding/json or of io *)

Definition external (err : option string) : option error :=
  match err with
  | Some e => Some (ErrorExternal e)
  | None => None
  end.

(** ** Values *)

Definition loc := positive.

Inductive value : Type :=
| VNil                              (* the nil interface, JSON null *)
| VMap (m : option loc)             (* map[string]interface{} *)
| VArray (a : list value)           (* []interface{} *)
| VBool (b : bool)
| VString (s : string)
| VFloat64 (f : spec_float)
| VInt (n : Z)                      (* int *)
| VInt64 (n : Z)                    (* int64 *)
| VJson (p : option value)          (* *Json: the data of the struct pointed to *)
| VOther (tag : nat).               (* any other dynamic type *)

(** type Json struct { data interface{} } *)
Record Json : Type := mkJson { data : value }.

(** The contents of every map, by location.  A location that is not
    recorded holds the empty map. *)
Abbreviation heap := (gmap loc (gmap string value)).

Definition map_contents (h : heap) (m : option loc) : gmap string value :=
  match m with
  | None => ∅
  | Some l => default ∅ (h !! l)
  end.

(** len(m) *)
Definition map_len (h : heap) (m : option loc) : Z :=
  Z.of_nat (size (map_contents h m)).

(** val, ok := m[key] *)
Definition map_index (h : heap) (m : option loc) (key : string) : option value :=
  map_contents h m !! key.

(** ** Type assertions *)

Definition Map (j : Json) : option loc * option error :=
  match data j with
  | VMap m => (m, None)
  | _ => (None, Some (ErrorNew "type assertion to map[string]interface{} failed"))
  end.

Definition Array (j : Json) : list value * option error :=
  match data j with
  | VArray a => (a, None)
  | _ => ([], Some (ErrorNew "type assertion to []interface{} failed"))
  end.

(** ** Size and null test *)

Definition Count (h : heap) (j : Json) : Z * option error :=
  let (m, err) := Map j in
  match err with
  | Some e => (-1, Some e)
  | None => (map_len h m, None)
  end.

Definition IsNull (h : heap) (j : Json) : bool :=
  match data j with
  | VNil => true
  | _ =>
      let (m, ok) := Map j in
      match ok with
      | None => map_len h m =? 0
      | Some _ => false
      end
  end.

(** ** Navigation *)

Definition Get (h : heap) (j : Json) (key : string) : Json :=
  let (m, err) := Map j in
  match err with
  | None =>
      match map_index h m key with
      | Some val => mkJson val
      | None => mkJson VNil
      end
  | Some _ => mkJson VNil
  end.

(** The first component is a [*Json]; the failure path returns nil. *)
Definition CheckGet (h : heap) (j : Json) (key : string) : option Json * bool :=
  let (m, err) := Map j in
  match err with
  | None =>
      match map_index h m key with
      | Some val => (Some (mkJson val), true)
      | None => (None, false)
      end
  | Some _ => (None, false)
  end.

(** The loop of [GetPath]; [jin] is the loop variable, [branch] the keys
    still to visit. *)
Fixpoint GetPath_from (h : heap) (jin : Json) (branch : list string) : Json :=
  match branch with
  | [] => jin
  | key :: rest =>
      let (m, err) := Map jin in
      match err with
      | Some _ => mkJson VNil
      | None =>
          match map_index h m key with
          | Some val => GetPath_from h (mkJson val) rest
          | None => mkJson VNil
          end
      end
  end.

Definition GetPath (h : heap) (j : Json) (branch : list string) : Json :=
  GetPath_from h j branch.

(** a[index]: Go checks the bounds and panics outside them. *)
Definition slice_index (a : list value) (index : Z) : outcome value :=
  if index <? 0 then Panics "index out of range"
  else match a !! Z.to_nat index with
       | Some v => Returns v
       | None => Panics "index out of range"
       end.

Definition GetIndex (j : Json) (index : Z) : outcome Json :=
  let (a, err) := Array j in
  match err with
  | None =>
      if Z.of_nat (length a) >? index
      then bind_outcome (slice_index a index) (fun v => Returns (mkJson v))
      else Returns (mkJson VNil)
  | Some _ => Returns (mkJson VNil)
  end.

(** ** Mutation *)

(** m[key] = val: a write to the nil map panics. *)
Definition map_assign (h : heap) (m : option loc) (key : string) (val : value)
  : outcome heap :=
  match m with
  | None => Panics "assignment to entry in nil map"
  | Some l => Returns (<[l := <[key := val]> (map_contents h m)]> h)
  end.

(** delete(m, key): nothing happens on the nil map. *)
Definition map_delete (h : heap) (m : option loc) (key : string) : heap :=
  match m with
  | None => h
  | Some l => <[l := delete key (map_contents h m)]> h
  end.

(** The type switch of [Set]: a [*Json] is replaced by its [data]. *)
Definition unwrap_Json (val : value) : outcome value :=
  match val with
  | VJson (Some d) => Returns d
  | VJson None => Panics "invalid memory address or nil pointer dereference"
  | _ => Returns val
  end.

Definition Set_ (h : heap) (j : Json) (key : string) (val : value) : outcome heap :=
  let (m, err) := Map j in
  match err with
  | Some _ => Returns h
  | None => bind_outcome (unwrap_Json val) (fun val' => map_assign h m key val')
  end.

Definition Delete (h : heap) (j : Json) (key : string) : heap * Json :=
  let (m, err) := Map j in
  match err with
  | None =>
      match map_index h m key with
      | Some _ => (map_delete h m key, j)
      | None => (h, j)
      end
  | Some _ => (h, j)
  end.

(** ** Integers *)

Definition int_min : Z := - 2 ^ 63.
Definition int_max : Z := 2 ^ 63 - 1.

(** Conversion of an integer to [int]: the low 64 bits, signed. *)
Definition wrap_int (z : Z) : Z := (z - int_min) mod 2 ^ 64 + int_min.

(** The integer part of a float, the fraction discarded; NaN and the
    infinities have none. *)
Definition trunc_float64 (f : spec_float) : option Z :=
  match f with
  | S754_zero _ => Some 0
  | S754_finite s m e =>
      let a := Z.shiftl (Z.pos m) e in
      Some (if s then - a else a)
  | S754_infinity _ => None
  | S754_nan => None
  end.

Section Numeric.

(** Go leaves the result of converting a float that [int] cannot
    represent to the implementation; [float64_unrepresentable] is what the
    target produces then. *)
Variable float64_unrepresentable : spec_float -> Z.

(** int(f) for a float64 [f] *)
Definition int_of_float64 (f : spec_float) : Z :=
  match trunc_float64 f with
  | Some z =>
      if (int_min <=? z) && (z <=? int_max) then z
      else wrap_int (float64_unrepresentable f)
  | None => wrap_int (float64_unrepresentable f)
  end.

Definition Int (j : Json) : Z * option error :=
  match data j with
  | VFloat64 f => (int_of_float64 f, None)
  | VInt f => (f, None)
  | VInt64 f => (wrap_int f, None)
  | _ => (-1, Some (ErrorNew "type assertion to int failed"))
  end.

(** [args] is the variadic argument; [log.Panicf] panics after logging its
    message, which ends with the number of arguments. *)
Definition MustInt (j : Json) (args : list Z) : outcome Z :=
  bind_outcome
    (match args with
     | [] => Returns 0
     | [d] => Returns d
     | _ => Panics "MustInt() received too many arguments"
     end)
    (fun def =>
       let (i, err) := Int j in
       match err with
       | None => Returns i
       | Some _ => Returns def
       end).

End Numeric.

(** ** Strings of the [strings] package *)

Definition newline : ascii := "010"%char.

(** strings.Split(s, "\n") *)
Fixpoint Split_newline (s : string) : list string :=
  match s with
  | EmptyString => [EmptyString]
  | String c rest =>
      if Ascii.eqb c newline then EmptyString :: Split_newline rest
      else match Split_newline rest with
           | first :: others => String c first :: others
           | [] => [String c EmptyString]
           end
  end.

(** strings.HasPrefix(s, prefix) *)
Definition HasPrefix (s prefix : string) : bool := String.prefix prefix s.

(** ** Loading and serialization *)

Section Codec.

(** encoding/json, the external codec.  Decoding allocates the maps of
    the decoded value in the heap. *)
Variable json_Unmarshal : heap -> list Byte.byte -> heap * value * option string.
Variable json_Marshal : heap -> value -> list Byte.byte * option string.
(** ioutil.ReadFile, the file system. *)
Variable ioutil_ReadFile : string -> list Byte.byte * option string.
(** strings.TrimSpace *)
Variable strings_TrimSpace : string -> string.

Definition MarshalJSON (h : heap) (j : Json) : list Byte.byte * option error :=
  let (b, err) := json_Marshal h (data j) in (b, external err).

Definition NewJson (h : heap) (body : list Byte.byte)
  : heap * option Json * option error :=
  let '(h', d, err) := json_Unmarshal h body in
  match external err with
  | Some e => (h', None, Some e)
  | None => (h', Some (mkJson d), None)
  end.

(** One turn of the loop over the lines; [builder] is the buffer. *)
Definition write_line (builder : string) (line : string) : string :=
  let line := strings_TrimSpace line in
  if String.eqb line EmptyString || HasPrefix line "#" then builder
  else String.append builder line.

Definition strip_comments (content : string) : string :=
  fold_left write_line (Split_newline content) EmptyString.

Definition NewJsonFromFile (h : heap) (filename : string)
  : heap * option Json * option error :=
  let (stream, err) := ioutil_ReadFile filename in
  match external err with
  | Some e => (h, None, Some e)
  | None =>
      let content := string_of_list_byte stream in
      NewJson h (list_byte_of_string (strip_comments content))
  end.

Definition ToString (h : heap) (j : Json) : string * option error :=
  if IsNull h j then (EmptyString, Some (ErrorNew "data is null"))
  else
    let (b, err) := MarshalJSON h j in
    match err with
    | None => (string_of_list_byte b, None)
    | Some e => (EmptyString, Some e)
    end.

(** The preprocessing as the specification words it: split into lines,
    trim each, drop the empty ones and the ones that start with #, and
    concatenate what is left. *)
Definition kept_line (line : string) : bool :=
  negb (String.eqb line EmptyString || HasPrefix line "#").

Definition strip_comments_spec (content : string) : string :=
  String.concat EmptyString (List.filter kept_line
                      (map strings_TrimSpace (Split_newline content))).

End Codec.

(** ** Concrete collaborators, for running the definitions *)

(** The white space of strings.TrimSpace among the ASCII bytes. *)
Definition is_space (c : ascii) : bool :=
  let n := nat_of_ascii c in
  (Nat.leb 9 n && Nat.leb n 13) || Nat.eqb n 32.

Fixpoint trim_left (s : string) : string :=
  match s with
  | EmptyString => EmptyString
  | String c rest => if is_space c then trim_left rest else s
  end.

Fixpoint trim_right (s : string) : string :=
  match s with
  | EmptyString => EmptyString
  | String c rest =>
      match trim_right rest with
      | EmptyString => if is_space c then EmptyString else String c EmptyString
      | kept => String c kept
      end
  end.

(** strings.TrimSpace on a string of ASCII bytes. *)
Definition TrimSpace_ascii (s : string) : string := trim_right (trim_left s).

(** The conversion of amd64 for a float that [int] cannot represent. *)
Definition unrepresentable_amd64 (f : spec_float) : Z := int_min.

(** float64(z): the binary64 number nearest to the integer [z]. *)
Definition float64_of_Z (z : Z) : spec_float :=
  binary_normalize 53 1024 z 0 false.

(** A line has no line break inside. *)
Fixpoint newline_free (s : string) : bool :=
  match s with
  | EmptyString => true
  | String c rest => negb (Ascii.eqb c newline) && newline_free rest
  end.

(** [removes_dropped trim ls ls']: [ls'] is [ls] without some of the lines
    that the loader drops, the empty ones and the comments. *)
Inductive removes_dropped (trim : string -> string)
  : list string -> list string -> Prop :=
| removes_nil : removes_dropped trim [] []
| removes_keep l ls ls' :
    removes_dropped trim ls ls' -> removes_dropped trim (l :: ls) (l :: ls')
| removes_skip l ls ls' :
    kept_line (trim l) = false ->
    removes_dropped trim ls ls' -> removes_dropped trim (l :: ls) ls'.

(** What Set stores for [val]. *)
Definition stored (val : value) : value :=
  match val with
  | VJson (Some d) => d
  | _ => val
  end.

(** The heap of the decoded document {"a": {}}: the outer map is at
    location 1, the empty inner map at location 2. *)
Definition heap_empty_entry : heap :=
  <[1%positive := {["a"%string := VMap (Some 2%positive)]}]>
    (<[2%positive := ∅]> ∅).

(** The heap of the decoded document {"a": {"b": [1, 2, 3]}}: the outer
    map is at location 1, the map under "a" at location 2. *)
Definition heap_nested : heap :=
  <[1%positive := {["a"%string := VMap (Some 2%positive)]}]>
    (<[2%positive :=
         {["b"%string := VArray [VFloat64 (float64_of_Z 1);
                                  VFloat64 (float64_of_Z 2);
                                  VFloat64 (float64_of_Z 3)]]}]> ∅).

(** The line break as a string, the separator between lines. *)
Definition newline_string : string := String newline EmptyString.

(** Collaborators that answer the same for every input. *)
Definition Unmarshal_string (h : heap) (body : list Byte.byte)
  : heap * value * option string :=
  (h, VString (string_of_list_byte body), None).

Definition Marshal_fixed (h : heap) (v : value) : list Byte.byte * option string :=
  (list_byte_of_string "{}", None).

(** encoding/json on a float that JSON cannot write, NaN or an infinity:
    json.Marshal returns an UnsupportedValueError.  On every other value
    this codec answers with fixed bytes. *)
Definition Marshal_unsupported_float (h : heap) (v : value)
  : list Byte.byte * option string :=
  match v with
  | VFloat64 S754_nan => ([], Some "json: unsupported value: NaN"%string)
  | VFloat64 (S754_infinity false) =>
      ([], Some "json: unsupported value: +Inf"%string)
  | VFloat64 (S754_infinity true) =>
      ([], Some "json: unsupported value: -Inf"%string)
  | _ => (list_byte_of_string "{}", None)
  end.

(** A file system with two files: a document with a comment line and a
    blank line, and the same document without them. *)
Definition commented_lines : list string :=
  ["["; "  # the ports"; EmptyString; "  80, 8080"; "]"]%string.

Definition plain_lines : list string :=
  ["["; "  80, 8080"; "]"]%string.

Definition ReadFile_two (filename : string) : list Byte.byte * option string :=
  if String.eqb filename "commented.json"
  then (list_byte_of_string (String.concat newline_string commented_lines), None)
  else if String.eqb filename "plain.json"
  then (list_byte_of_string (String.concat newline_string plain_lines), None)
  else ([], Some "no such file"%string).

(** ** The other accessors *)

(** j.data = v; the receiver is returned. *)
Definition SetData (j : Json) (v : value) : Json := mkJson v.

Definition GetData (j : Json) : value := data j.

Definition Bool (j : Json) : bool * option error :=
  match data j with
  | VBool s => (s, None)
  | _ => (false, Some (ErrorNew "type assertion to bool failed"))
  end.

Definition String_ (j : Json) : string * option error :=
  match data j with
  | VString s => (s, None)
  | _ => (EmptyString, Some (ErrorNew "type assertion to string failed"))
  end.

Definition Float64 (j : Json) : spec_float * option error :=
  match data j with
  | VFloat64 i => (i, None)
  | _ => (float64_of_Z (-1), Some (ErrorNew "type assertion to float64 failed"))
  end.

(** []byte(s) *)
Definition Bytes (j : Json) : list Byte.byte * option error :=
  match data j with
  | VString s => (list_byte_of_string s, None)
  | _ => ([], Some (ErrorNew "type assertion to []byte failed"))
  end.

(** Whether a call returned a nil error. *)
Definition succeeded {A : Type} (r : A * option error) : bool :=
  match snd r with
  | None => true
  | Some _ => false
  end.

Section Conversions.

Variable float64_unrepresentable : spec_float -> Z.

(** int64(f) is the conversion of [int_of_float64]: int has 64 bits. *)
Definition Int64 (j : Json) : Z * option error :=
  match data j with
  | VFloat64 f => (int_of_float64 float64_unrepresentable f, None)
  | VInt f => (wrap_int f, None)
  | VInt64 f => (f, None)
  | _ => (-1, Some (ErrorNew "type assertion to int64 failed"))
  end.

(** The slices of another dynamic type: what the assertions to []string,
    []int64 and []int give on the value behind [VOther tag]. *)
Variable other_strings : nat -> option (list string).
Variable other_int64s : nat -> option (list Z).
Variable other_ints : nat -> option (list Z).

(** The loop over a []interface{} in StringArray; [retArr] is the slice
    built so far. *)
Fixpoint StringArray_loop (arr : list value) (retArr : list string)
  : list string * option error :=
  match arr with
  | [] => (retArr, None)
  | a :: rest =>
      match a with
      | VString s => StringArray_loop rest (retArr ++ [s])
      | _ => ([], Some (ErrorNew "type assertion to string failed"))
      end
  end.

(** The loops that copy a typed slice, converting each element. *)
Definition copy_loop {A B : Type} (conv : A -> B) (arr : list A) : list B :=
  fold_left (fun retArr a => retArr ++ [conv a]) arr [].

Definition StringArray (j : Json) : list string * option error :=
  match data j with
  | VArray arr => StringArray_loop arr []
  | VOther tag =>
      match other_strings tag with
      | Some arr => (copy_loop (fun a => a) arr, None)
      | None => ([], Some (ErrorNew "type assertion to []string failed"))
      end
  | _ => ([], Some (ErrorNew "type assertion to []string failed"))
  end.

(** The loop over a []interface{} in Int64Array and IntArray, which differ
    in the conversion [conv] of the float. *)
Fixpoint IntArray_loop (conv : spec_float -> Z) (arr : list value)
    (retArr : list Z) : list Z * option error :=
  match arr with
  | [] => (retArr, None)
  | a :: rest =>
      match a with
      | VFloat64 s => IntArray_loop conv rest (retArr ++ [conv s])
      | _ => ([], Some (ErrorNew "type assertion to float64 failed"))
      end
  end.

Definition Int64Array (j : Json) : list Z * option error :=
  match data j with
  | VArray arr => IntArray_loop (int_of_float64 float64_unrepresentable) arr []
  | VOther tag =>
      match other_int64s tag with
      | Some arr => (copy_loop (fun a => a) arr, None)
      | None =>
          match other_ints tag with
          | Some arr => (copy_loop wrap_int arr, None)
          | None => ([], Some (ErrorNew "type assertion to []int64 failed"))
          end
      end
  | _ => ([], Some (ErrorNew "type assertion to []int64 failed"))
  end.

Definition IntArray (j : Json) : list Z * option error :=
  match data j with
  | VArray arr => IntArray_loop (int_of_float64 float64_unrepresentable) arr []
  | VOther tag =>
      match other_int64s tag with
      | Some arr => (copy_loop wrap_int arr, None)
      | None =>
          match other_ints tag with
          | Some arr => (copy_loop (fun a => a) arr, None)
          | None => ([], Some (ErrorNew "type assertion to []int failed"))
          end
      end
  | _ => ([], Some (ErrorNew "type assertion to []int failed"))
  end.

Definition MustInt64 (j : Json) (args : list Z) : outcome Z :=
  bind_outcome
    (match args with
     | [] => Returns 0
     | [d] => Returns d
     | _ => Panics "MustInt() received too many arguments"
     end)
    (fun def =>
       let (i, err) := Int64 j in
       match err with
       | None => Returns i
       | Some _ => Returns def
       end).

End Conversions.

(** ** The other defaulting accessors *)

(** The zero value of a slice is the nil slice, of a map the nil map, of a
    float +0. *)
Definition MustArray (j : Json) (args : list (list value)) : outcome (list value) :=
  bind_outcome
    (match args with
     | [] => Returns []
     | [d] => Returns d
     | _ => Panics "MustArray() received too many arguments"
     end)
    (fun def =>
       let (a, err) := Array j in
       match err with
       | None => Returns a
       | Some _ => Returns def
       end).

Definition MustMap (j : Json) (args : list (option loc)) : outcome (option loc) :=
  bind_outcome
    (match args with
     | [] => Returns None
     | [d] => Returns d
     | _ => Panics "MustMap() received too many arguments"
     end)
    (fun def =>
       let (a, err) := Map j in
       match err with
       | None => Returns a
       | Some _ => Returns def
       end).

Definition MustString (j : Json) (args : list string) : outcome string :=
  bind_outcome
    (match args with
     | [] => Returns EmptyString
     | [d] => Returns d
     | _ => Panics "MustString() received too many arguments"
     end)
    (fun def =>
       let (s, err) := String_ j in
       match err with
       | None => Returns s
       | Some _ => Returns def
       end).

Definition MustFloat64 (j : Json) (args : list spec_float) : outcome spec_float :=
  bind_outcome
    (match args with
     | [] => Returns (S754_zero false)
     | [d] => Returns d
     | _ => Panics "MustFloat64() received too many arguments"
     end)
    (fun def =>
       let (i, err) := Float64 j in
       match err with
       | None => Returns i
       | Some _ => Returns def
       end).

Section Encoding.

Variable json_Unmarshal : heap -> list Byte.byte -> heap * value * option string.
Variable json_Marshal : heap -> value -> list Byte.byte * option string.

Definition Encode (h : heap) (j : Json) : list Byte.byte * option error :=
  MarshalJSON json_Marshal h j.

(** json.Unmarshal(p, &j.data): the receiver with its new data. *)
Definition UnmarshalJSON (h : heap) (j : Json) (p : list Byte.byte)
  : heap * Json * option error :=
  let '(h', d, err) := json_Unmarshal h p in (h', mkJson d, external err).

End Encoding.

(** A panic, with whatever message. *)
Definition panics {A : Type} (o : outcome A) : bool :=
  match o with
  | Panics _ => true
  | Returns _ => false
  end.

(** * Properties *)

(** ** Map lookups *)

Lemma Map_of_map (m : option loc) : Map (mkJson (VMap m)) = (m, None).
Proof. reflexivity. Qed.

Lemma Map_error (j : Json) :
  (forall m, data j <> VMap m) ->
  Map j = (None, Some (ErrorNew "type assertion to map[string]interface{} failed")).
Proof.
  intros Hj. unfold Map. destruct (data j); try reflexivity.
  now destruct (Hj m).
Qed.

Lemma Get_of_map (h : heap) (m : option loc) (key : string) :
  Get h (mkJson (VMap m)) key =
  mkJson (default VNil (map_index h m key)).
Proof. unfold Get. simpl. now destruct (map_index h m key). Qed.

Lemma Get_not_map (h : heap) (j : Json) (key : string) :
  (forall m, data j <> VMap m) -> Get h j key = mkJson VNil.
Proof. intros Hj. unfold Get. now rewrite (Map_error j Hj). Qed.

Lemma Get_nil (h : heap) (key : string) : Get h (mkJson VNil) key = mkJson VNil.
Proof. reflexivity. Qed.

Lemma fold_Get_nil (h : heap) (branch : list string) :
  fold_left (Get h) branch (mkJson VNil) = mkJson VNil.
Proof. induction branch as [|key rest IH]; simpl; [reflexivity | exact IH]. Qed.

(** ** GetIndex *)

Lemma GetIndex_in_range (a : list value) (index : Z) (v : value) :
  0 <= index -> a !! Z.to_nat index = Some v ->
  GetIndex (mkJson (VArray a)) index = Returns (mkJson v).
Proof.
  intros Hpos Hv. unfold GetIndex. simpl.
  apply lookup_lt_Some in Hv as Hlt.
  destruct (Z.gtb_spec (Z.of_nat (length a)) index) as [_|Hle]; [|lia].
  unfold slice_index.
  destruct (Z.ltb_spec index 0) as [Hneg|_]; [lia|].
  now rewrite Hv.
Qed.

Lemma GetIndex_beyond (a : list value) (index : Z) :
  Z.of_nat (length a) <= index ->
  GetIndex (mkJson (VArray a)) index = Returns (mkJson VNil).
Proof.
  intros Hle. unfold GetIndex. simpl.
  destruct (Z.gtb_spec (Z.of_nat (length a)) index) as [Hgt|_]; [lia|reflexivity].
Qed.

Lemma GetIndex_not_array (j : Json) (index : Z) :
  (forall a, data j <> VArray a) -> GetIndex j index = Returns (mkJson VNil).
Proof.
  intros Hj. unfold GetIndex, Array. destruct (data j); try reflexivity.
  now destruct (Hj a).
Qed.

Lemma GetIndex_negative (a : list value) (index : Z) :
  index < 0 -> GetIndex (mkJson (VArray a)) index = Panics "index out of range".
Proof.
  intros Hneg. unfold GetIndex. simpl.
  destruct (Z.gtb_spec (Z.of_nat (length a)) index) as [_|Hle]; [|lia].
  unfold slice_index.
  destruct (Z.ltb_spec index 0) as [_|Hpos]; [reflexivity|lia].
Qed.

(** C1: the behaviour of GetIndex on [1, 2, 3] at index -1.  The guard
    len(a) > index lets the negative index through and the indexing
    a[index] panics, where the specification promises the null
    placeholder. *)
Theorem GetIndex_minus_one_panics :
  GetIndex (mkJson (VArray [VFloat64 (float64_of_Z 1);
                            VFloat64 (float64_of_Z 2);
                            VFloat64 (float64_of_Z 3)])) (-1)
  = Panics "index out of range".
Proof. apply GetIndex_negative. lia. Qed.

(** ** GetPath *)

Lemma GetPath_from_fold (h : heap) (branch : list string) :
  forall jin, GetPath_from h jin branch = fold_left (Get h) branch jin.
Proof.
  induction branch as [|key rest IH]; intros jin; simpl; [reflexivity|].
  rewrite <- IH. unfold Get at 1.
  destruct (Map jin) as [m [e|]].
  - now rewrite IH, fold_Get_nil.
  - destruct (map_index h m key) as [val|]; [reflexivity|].
    now rewrite IH, fold_Get_nil.
Qed.

(** C3: GetPath(k1, ..., kn) is Get(k1), then Get(k2) on the result, and so
    on, for every held value and every n >= 0; with no key it is the
    receiver itself. *)
Theorem GetPath_iterates_Get (h : heap) (j : Json) (branch : list string) :
  GetPath h j branch = fold_left (Get h) branch j
  /\ data (GetPath h j branch) = data (fold_left (Get h) branch j)
  /\ GetPath h j [] = j.
Proof.
  unfold GetPath. rewrite GetPath_from_fold. repeat split.
Qed.

(** ** IsNull and Count *)

Lemma IsNull_true_iff (h : heap) (j : Json) :
  IsNull h j = true <->
  data j = VNil \/ exists m, data j = VMap m /\ size (map_contents h m) = 0%nat.
Proof.
  unfold IsNull, Map, map_len. destruct (data j) as [|m| | | | | | | |] eqn:Hd.
  2: { split.
       - intros Hz. right. exists m. split; [reflexivity|].
         apply Z.eqb_eq in Hz. lia.
       - intros [Hnil | (m' & Hm & Hsz)]; [discriminate|].
         injection Hm as <-. apply Z.eqb_eq. lia. }
  1: { split; [now left | reflexivity]. }
  all: split; [discriminate | intros [Hnil | (m' & Hm & _)]; discriminate].
Qed.

(** C4: IsNull is true exactly for the nil data and for a mapping with no
    entry; it is false for every other held value. *)
Theorem IsNull_null_or_empty_map (h : heap) (j : Json) :
  (IsNull h j = true <->
   data j = VNil
   \/ exists m, data j = VMap m /\ size (map_contents h m) = 0%nat)
  /\ match data j with
     | VNil => IsNull h j = true
     | VMap m => IsNull h j = Nat.eqb (size (map_contents h m)) 0
     | _ => IsNull h j = false
     end.
Proof.
  split; [apply IsNull_true_iff|].
  unfold IsNull, Map, map_len. destruct (data j); try reflexivity.
  destruct (size (map_contents h m)); reflexivity.
Qed.

(** C10: on a held value that is not a mapping Count returns -1 and the
    error of Map; on a mapping it returns the number of entries and no
    error. *)
Theorem Count_spec (h : heap) (j : Json) :
  match data j with
  | VMap m => Count h j = (Z.of_nat (size (map_contents h m)), None)
  | _ => Count h j = (-1, snd (Map j))
         /\ snd (Map j)
            = Some (ErrorNew "type assertion to map[string]interface{} failed")
  end.
Proof.
  unfold Count, Map, map_len. destruct (data j); repeat split.
Qed.

(** ** CheckGet against Get *)

Lemma CheckGet_of_map (h : heap) (m : option loc) (key : string) :
  CheckGet h (mkJson (VMap m)) key =
  match map_index h m key with
  | Some val => (Some (mkJson val), true)
  | None => (None, false)
  end.
Proof. reflexivity. Qed.

(** C2, as stated, fails on {"a": {}} at key "a": the key is present and
    its value is not JSON null, CheckGet reports true, and yet Get returns
    a wrapper whose IsNull is true. *)
Lemma CheckGet_Get_disagree_on_empty_map :
  let j := mkJson (VMap (Some 1%positive)) in
  ~ (snd (CheckGet heap_empty_entry j "a") = false
     <-> IsNull heap_empty_entry (Get heap_empty_entry j "a") = true)
  /\ map_index heap_empty_entry (Some 1%positive) "a" <> Some VNil.
Proof.
  split.
  - intros [_ Hback]. assert (Hnull : IsNull heap_empty_entry
      (Get heap_empty_entry (mkJson (VMap (Some 1%positive))) "a") = true)
      by (vm_compute; reflexivity).
    specialize (Hback Hnull). vm_compute in Hback. discriminate.
  - vm_compute. discriminate.
Qed.

(** C2, amended: on a mapping receiver CheckGet reports false exactly when
    the key is absent, and then Get returns the null placeholder; when the
    key is present both wrap its value and CheckGet reports true, and that
    wrapper IsNull exactly when the value is JSON null or a mapping with no
    entry. *)
Theorem CheckGet_Get_agree (h : heap) (m : option loc) (key : string) :
  let j := mkJson (VMap m) in
  match map_index h m key with
  | None =>
      CheckGet h j key = (None, false) /\ IsNull h (Get h j key) = true
  | Some val =>
      CheckGet h j key = (Some (mkJson val), true)
      /\ Get h j key = mkJson val
      /\ (IsNull h (Get h j key) = true <->
          val = VNil
          \/ exists r, val = VMap r /\ size (map_contents h r) = 0%nat)
  end.
Proof.
  intros j. subst j. rewrite CheckGet_of_map, Get_of_map.
  destruct (map_index h m key) as [val|]; simpl.
  - split; [reflexivity|]. split; [reflexivity|].
    apply (IsNull_true_iff h (mkJson val)).
  - split; reflexivity.
Qed.

(** ** Set *)

Lemma unwrap_Json_stored (val : value) :
  val <> VJson None -> unwrap_Json val = Returns (stored val).
Proof.
  intros Hval. destruct val as [| | | | | | | |[d|]|]; try reflexivity.
  now destruct Hval.
Qed.

Lemma map_index_assign (h : heap) (l : loc) (key : string) (val : value) :
  map_index (<[l := <[key := val]> (map_contents h (Some l))]> h) (Some l) key
  = Some val.
Proof.
  unfold map_index. cbn [map_contents].
  rewrite lookup_insert_eq. cbn [default]. apply lookup_insert_eq.
Qed.

(** C5, as stated, fails on a receiver that holds the nil map, which is a
    mapping for Map, IsNull and Count: the assignment panics and no value
    is stored. *)
Lemma Set_on_nil_map_stores_nothing :
  Set_ ∅ (mkJson (VMap None)) "k" (VBool true)
  = Panics "assignment to entry in nil map"
  /\ ~ (exists h', Set_ ∅ (mkJson (VMap None)) "k" (VBool true) = Returns h'
                   /\ data (Get h' (mkJson (VMap None)) "k") = VBool true).
Proof.
  split; [reflexivity|]. intros (h' & Hset & _). discriminate Hset.
Qed.

(** C5, amended: on a receiver that holds a map other than the nil map, and
    for a value that is not a nil wrapper pointer, Set(k, v) returns and
    Get(k) then wraps v, or the data of v when v is a wrapper; on a receiver
    that holds no map Set returns and changes nothing. *)
Theorem Set_then_Get (h : heap) (key : string) (v : value) :
  (forall l, v <> VJson None ->
     exists h', Set_ h (mkJson (VMap (Some l))) key v = Returns h'
                /\ Get h' (mkJson (VMap (Some l))) key = mkJson (stored v)
                /\ stored v = match v with VJson (Some d) => d | _ => v end)
  /\ (forall j, (forall m, data j <> VMap m) -> Set_ h j key v = Returns h).
Proof.
  split.
  - intros l Hv. unfold Set_. rewrite Map_of_map, (unwrap_Json_stored v Hv).
    cbn [bind_outcome map_assign]. eexists. split; [reflexivity|].
    split; [|reflexivity].
    rewrite Get_of_map, map_index_assign. reflexivity.
  - intros j Hj. unfold Set_. now rewrite (Map_error j Hj).
Qed.

Lemma Set_then_Get_witness :
  exists h', Set_ heap_empty_entry (mkJson (VMap (Some 2%positive))) "b"
                  (VJson (Some (VString "x"))) = Returns h'
             /\ Get h' (mkJson (VMap (Some 2%positive))) "b"
                = mkJson (VString "x").
Proof.
  destruct (proj1 (Set_then_Get heap_empty_entry "b" (VJson (Some (VString "x"))))
              2%positive) as (h' & Hset & Hget & _); [discriminate|].
  exists h'. split; [exact Hset | exact Hget].
Defined.

(** X5: two wrappers of one map share it: when key maps to a map that is
    not the nil map and lies at another location than the parent's, and v
    is not a nil wrapper pointer, a Set(k, v) through the child wrapper that
    Get(key) returned returns and is seen from the parent, whose
    GetPath(key, k) then holds what was stored. *)
Lemma Set_seen_from_parent (h : heap) (l l' : loc) (key k : string) (v : value) :
  map_index h (Some l) key = Some (VMap (Some l')) -> l <> l' ->
  v <> VJson None ->
  exists h', Set_ h (Get h (mkJson (VMap (Some l))) key) k v = Returns h'
             /\ GetPath h' (mkJson (VMap (Some l))) [key; k] = mkJson (stored v).
Proof.
  intros Hkey Hne Hv.
  assert (HGet : Get h (mkJson (VMap (Some l))) key = mkJson (VMap (Some l')))
    by (rewrite Get_of_map, Hkey; reflexivity).
  rewrite HGet. unfold Set_. rewrite Map_of_map, (unwrap_Json_stored v Hv).
  cbn [bind_outcome map_assign]. eexists. split; [reflexivity|].
  unfold GetPath. cbn [GetPath_from]. rewrite Map_of_map.
  assert (Hparent : forall c,
            map_index (<[l' := c]> h) (Some l) key = Some (VMap (Some l'))).
  { intros c. unfold map_index in *. cbn [map_contents] in *.
    rewrite lookup_insert_ne by congruence. exact Hkey. }
  rewrite Hparent, Map_of_map, map_index_assign. reflexivity.
Qed.

Lemma Delete_then_Get (h : heap) (l : loc) (key : string) :
  Get (fst (Delete h (mkJson (VMap (Some l))) key)) (mkJson (VMap (Some l))) key
  = mkJson VNil.
Proof.
  unfold Delete. rewrite Map_of_map.
  destruct (map_index h (Some l) key) as [val|] eqn:Hkey; cbn [fst].
  - rewrite Get_of_map. unfold map_index, map_delete. cbn [map_contents].
    rewrite lookup_insert_eq. simpl. now rewrite lookup_delete_eq.
  - now rewrite Get_of_map, Hkey.
Qed.

(** ** Int and MustInt *)

Lemma wrap_int_range (z : Z) : int_min <= wrap_int z <= int_max.
Proof.
  unfold wrap_int, int_min, int_max.
  pose proof (Z.mod_pos_bound (z - - 2 ^ 63) (2 ^ 64) ltac:(lia)). lia.
Qed.

Lemma wrap_int_id (z : Z) : int_min <= z <= int_max -> wrap_int z = z.
Proof.
  unfold wrap_int, int_min, int_max. intros Hz.
  rewrite Z.mod_small; lia.
Qed.

(** [trunc_float64] rounds toward zero: on the value m * 2^e with e < 0 it
    is the quotient of Z.quot, which discards the fraction. *)
Lemma trunc_float64_quot (s : bool) (m : positive) (e : Z) :
  trunc_float64 (S754_finite s m e) =
  Some (if e <? 0
        then Z.quot (if s then Z.neg m else Z.pos m) (2 ^ (- e))
        else (if s then Z.neg m else Z.pos m) * 2 ^ e).
Proof.
  unfold trunc_float64. f_equal.
  destruct (Z.ltb_spec e 0) as [Hneg|Hpos].
  - assert (Hp : 0 < 2 ^ (- e)) by (apply Z.pow_pos_nonneg; lia).
    assert (Hs : Z.shiftl (Z.pos m) e = Z.pos m / 2 ^ (- e)).
    { apply Z.shiftl_div_pow2. lia. }
    rewrite Hs. destruct s.
    + change (Z.neg m) with (- Z.pos m). rewrite Z.quot_opp_l by lia.
      rewrite Z.quot_div_nonneg by lia. reflexivity.
    + rewrite Z.quot_div_nonneg by lia. reflexivity.
  - rewrite Z.shiftl_mul_pow2 by lia.
    destruct s; [change (Z.neg m) with (- Z.pos m); lia | reflexivity].
Qed.

Lemma Int_float64_unrepresentable impl (f : spec_float) (z : Z) :
  trunc_float64 f = Some z -> ~ (int_min <= z <= int_max) ->
  Int impl (mkJson (VFloat64 f)) = (wrap_int (impl f), None).
Proof.
  intros Hf Hz. unfold Int, int_of_float64. cbn [data]. rewrite Hf.
  destruct (Z.leb_spec int_min z), (Z.leb_spec z int_max);
    cbn [andb]; try reflexivity; lia.
Qed.

(** C7, as stated, fails on the float 2^63 (the JSON number
    9223372036854775808): its integer part is 2^63, which no int holds, so
    on no target does Int return it. *)
Lemma Int_of_two_pow_63_not_truncation :
  trunc_float64 (float64_of_Z (2 ^ 63)) = Some (2 ^ 63)
  /\ valid_binary 53 1024 (float64_of_Z (2 ^ 63)) = true
  /\ ~ (exists impl,
          Int impl (mkJson (VFloat64 (float64_of_Z (2 ^ 63)))) = (2 ^ 63, None)).
Proof.
  split; [vm_compute; reflexivity|]. split; [vm_compute; reflexivity|].
  intros (impl & HInt).
  rewrite (Int_float64_unrepresentable impl _ (2 ^ 63)) in HInt.
  - pose proof (wrap_int_range (impl (float64_of_Z (2 ^ 63)))) as Hr.
    pose proof (f_equal fst HInt) as Hw. cbn [fst] in Hw.
    unfold int_max in Hr. lia.
  - vm_compute. reflexivity.
  - unfold int_min, int_max. lia.
Qed.

(** C7, amended: Int succeeds exactly when the held value is a float64, an
    int or an int64, and otherwise returns -1 and an error; on a float64
    whose integer part is within the range of int it returns that integer
    part, the float truncated toward zero. *)
Theorem Int_succeeds_on_numbers impl (j : Json) :
  (snd (Int impl j) = None <->
   (exists f, data j = VFloat64 f) \/ (exists n, data j = VInt n)
   \/ (exists n, data j = VInt64 n))
  /\ (snd (Int impl j) <> None ->
      Int impl j = (-1, Some (ErrorNew "type assertion to int failed")))
  /\ (forall f z, data j = VFloat64 f -> trunc_float64 f = Some z ->
                 int_min <= z <= int_max -> Int impl j = (z, None)).
Proof.
  split; [|split].
  - unfold Int. destruct (data j); cbn [snd]; split;
      try discriminate; try (intros _; eauto; fail);
      intros [[f' H]|[[n' H]|[n' H]]]; discriminate.
  - unfold Int. destruct (data j); cbn [snd]; try reflexivity;
      intros H; now destruct H.
  - intros f z Hd Hf Hz. unfold Int, int_of_float64. rewrite Hd, Hf.
    destruct (Z.leb_spec int_min z), (Z.leb_spec z int_max);
      cbn [andb]; try reflexivity; lia.
Qed.

Lemma Int_succeeds_on_numbers_witness :
  Int unrepresentable_amd64 (mkJson (VFloat64 (float64_of_Z (-7)))) = (-7, None).
Proof.
  apply (proj2 (proj2 (Int_succeeds_on_numbers unrepresentable_amd64
                         (mkJson (VFloat64 (float64_of_Z (-7))))))
           (float64_of_Z (-7)) (-7)).
  - reflexivity.
  - vm_compute. reflexivity.
  - unfold int_min, int_max. lia.
Defined.

(** C8: MustInt without a default returns the value of Int when Int
    succeeds and 0 when it fails; MustInt with one default d returns the
    value of Int when Int succeeds and d when it fails. *)
Theorem MustInt_defaults impl (j : Json) :
  match Int impl j with
  | (i, None) =>
      MustInt impl j [] = Returns i
      /\ forall d, MustInt impl j [d] = Returns i
  | (_, Some _) =>
      MustInt impl j [] = Returns 0
      /\ forall d, MustInt impl j [d] = Returns d
  end.
Proof.
  unfold MustInt. cbn [bind_outcome].
  destruct (Int impl j) as [i [e|]]; split; reflexivity.
Qed.

(** ** ToString *)

(** C6, as stated, fails on a receiver that holds the float NaN, put there
    by SetData or stored by Set: IsNull is false, the serialization fails,
    and ToString fails with the error of the codec, so ToString fails
    although IsNull is false and returns no string of bytes. *)
Lemma ToString_fails_on_NaN_not_null :
  let j := SetData (mkJson VNil) (VFloat64 S754_nan) in
  IsNull ∅ j = false
  /\ ToString Marshal_unsupported_float ∅ j
     = (EmptyString, Some (ErrorExternal "json: unsupported value: NaN"))
  /\ ~ (snd (ToString Marshal_unsupported_float ∅ j) <> None
        <-> IsNull ∅ j = true).
Proof.
  split; [reflexivity|]. split; [reflexivity|].
  intros [Hfails _].
  assert (Hnull : IsNull ∅ (SetData (mkJson VNil) (VFloat64 S754_nan)) = true)
    by (apply Hfails; discriminate).
  discriminate Hnull.
Qed.

(** C6, amended: ToString fails with the error "data is null" exactly when
    IsNull is true, which includes the receiver that holds an empty
    mapping; when IsNull is false it returns the bytes of the serialization
    of the held value as a string when the serialization succeeds, and
    fails with the error of the serialization when that fails. *)
Theorem ToString_null_data marshal (h : heap) (j : Json) :
  (snd (ToString marshal h j) = Some (ErrorNew "data is null")
   <-> IsNull h j = true)
  /\ (if IsNull h j
      then ToString marshal h j = (EmptyString, Some (ErrorNew "data is null"))
      else match marshal h (data j) with
           | (b, None) => ToString marshal h j = (string_of_list_byte b, None)
           | (_, Some e) =>
               ToString marshal h j = (EmptyString, Some (ErrorExternal e))
           end)
  /\ ToString marshal h (mkJson (VMap None))
     = (EmptyString, Some (ErrorNew "data is null"))
  /\ (forall l, ToString marshal (<[l := ∅]> h) (mkJson (VMap (Some l)))
                = (EmptyString, Some (ErrorNew "data is null"))).
Proof.
  split; [|split; [|split]].
  - unfold ToString, MarshalJSON. destruct (IsNull h j).
    + split; reflexivity.
    + destruct (marshal h (data j)) as [b [e|]]; cbn; split; discriminate.
  - unfold ToString, MarshalJSON. destruct (IsNull h j); [reflexivity|].
    destruct (marshal h (data j)) as [b [e|]]; reflexivity.
  - reflexivity.
  - intros l. unfold ToString, IsNull, map_len. cbn [data Map map_contents].
    rewrite lookup_insert_eq. reflexivity.
Qed.

(** ** Loading a file *)

Lemma append_nil_l (s : string) : String.append EmptyString s = s.
Proof. reflexivity. Qed.

Lemma append_cons (c : ascii) (s t : string) :
  String.append (String c s) t = String c (String.append s t).
Proof. reflexivity. Qed.

Lemma append_empty_r (s : string) : String.append s EmptyString = s.
Proof.
  induction s as [|c s IH]; [reflexivity|]. now rewrite append_cons, IH.
Qed.

Lemma append_assoc (s t u : string) :
  String.append (String.append s t) u = String.append s (String.append t u).
Proof.
  induction s as [|c s IH]; [reflexivity|]. now rewrite !append_cons, IH.
Qed.

Lemma concat_empty_cons (l : string) (ls : list string) :
  String.concat EmptyString (l :: ls)
  = String.append l (String.concat EmptyString ls).
Proof.
  destruct ls as [|l' ls]; cbn [String.concat];
    [now rewrite append_empty_r | reflexivity].
Qed.

Section Loader.

Variable trim : string -> string.

Lemma write_line_kept (builder line : string) :
  write_line trim builder line =
  if kept_line (trim line) then String.append builder (trim line) else builder.
Proof.
  unfold write_line, kept_line.
  now destruct (String.eqb (trim line) EmptyString || HasPrefix (trim line) "#").
Qed.

Lemma fold_write_line (lines : list string) :
  forall builder,
    fold_left (write_line trim) lines builder =
    String.append builder
      (String.concat EmptyString (List.filter kept_line (map trim lines))).
Proof.
  induction lines as [|line lines IH]; intros builder.
  - cbn [fold_left map List.filter String.concat].
    now rewrite append_empty_r.
  - cbn [fold_left map List.filter]. rewrite IH, write_line_kept.
    destruct (kept_line (trim line)); [|reflexivity].
    now rewrite concat_empty_cons, append_assoc.
Qed.

(** The loop of the loader computes the buffer of the specification. *)
Lemma strip_comments_refines (content : string) :
  strip_comments trim content = strip_comments_spec trim content.
Proof. unfold strip_comments. now rewrite fold_write_line. Qed.

Lemma removes_dropped_filter (ls ls' : list string) :
  removes_dropped trim ls ls' ->
  List.filter kept_line (map trim ls) = List.filter kept_line (map trim ls').
Proof.
  induction 1 as [|l ls ls' _ IH|l ls ls' Hl _ IH]; cbn [map List.filter].
  - reflexivity.
  - now rewrite IH.
  - now rewrite Hl.
Qed.

Lemma removes_dropped_newline_free (ls ls' : list string) :
  removes_dropped trim ls ls' ->
  forallb newline_free ls = true -> forallb newline_free ls' = true.
Proof.
  induction 1 as [|l ls ls' _ IH|l ls ls' _ _ IH]; cbn [forallb];
    rewrite ?andb_true_iff; intuition.
Qed.

End Loader.

Lemma Split_newline_line (s : string) :
  newline_free s = true -> Split_newline s = [s].
Proof.
  induction s as [|c s IH]; cbn [newline_free Split_newline]; [reflexivity|].
  rewrite andb_true_iff, negb_true_iff. intros [Hc Hs].
  now rewrite Hc, (IH Hs).
Qed.

Lemma Split_newline_append (s t : string) :
  newline_free s = true ->
  Split_newline (String.append s (String.append newline_string t))
  = s :: Split_newline t.
Proof.
  induction s as [|c s IH]; cbn [newline_free].
  - intros _. reflexivity.
  - rewrite andb_true_iff, negb_true_iff. intros [Hc Hs].
    rewrite append_cons. cbn [Split_newline]. now rewrite Hc, (IH Hs).
Qed.

Lemma Split_newline_concat (lines : list string) :
  lines <> [] -> forallb newline_free lines = true ->
  Split_newline (String.concat newline_string lines) = lines.
Proof.
  induction lines as [|l lines IH]; [congruence|]. intros _.
  cbn [forallb]. rewrite andb_true_iff. intros [Hl Hls].
  destruct lines as [|l' lines].
  - cbn [String.concat]. now apply Split_newline_line.
  - change (String.concat newline_string (l :: l' :: lines))
      with (String.append l (String.append newline_string
              (String.concat newline_string (l' :: lines)))).
    rewrite (Split_newline_append _ _ Hl), IH; [reflexivity|congruence|exact Hls].
Qed.

(** C9: NewJsonFromFile decodes the buffer made by splitting the content
    into lines, trimming each, dropping the lines that are then empty or
    start with #, and concatenating the rest with no line break; so a file
    parses as the file without some of its comment lines does. *)
Theorem NewJsonFromFile_strips_comments unmarshal readfile trim
    (h : heap) (filename : string) (stream : list Byte.byte) :
  readfile filename = (stream, None) ->
  NewJsonFromFile unmarshal readfile trim h filename
  = NewJson unmarshal h
      (list_byte_of_string
         (String.concat EmptyString
            (List.filter (fun l => negb (String.eqb l EmptyString || HasPrefix l "#"))
               (map trim (Split_newline (string_of_list_byte stream))))))
  /\ (forall lines lines' filename',
        string_of_list_byte stream = String.concat newline_string lines ->
        forallb newline_free lines = true ->
        removes_dropped trim lines lines' ->
        lines' <> [] ->
        readfile filename'
        = (list_byte_of_string (String.concat newline_string lines'), None) ->
        NewJsonFromFile unmarshal readfile trim h filename'
        = NewJsonFromFile unmarshal readfile trim h filename).
Proof.
  intros Hread.
  assert (Hload : forall name bytes, readfile name = (bytes, None) ->
            NewJsonFromFile unmarshal readfile trim h name
            = NewJson unmarshal h
                (list_byte_of_string
                   (strip_comments_spec trim (string_of_list_byte bytes)))).
  { intros name bytes Hname. unfold NewJsonFromFile. rewrite Hname.
    cbn [external]. now rewrite strip_comments_refines. }
  split; [exact (Hload _ _ Hread)|].
  intros lines lines' filename' Hcontent Hfree Hrem Hne Hread'.
  rewrite (Hload _ _ Hread), (Hload _ _ Hread').
  rewrite Hcontent, string_of_list_byte_of_string.
  unfold strip_comments_spec.
  assert (Hne0 : lines <> []) by (intros ->; inversion Hrem; congruence).
  rewrite (Split_newline_concat lines Hne0 Hfree).
  rewrite (Split_newline_concat lines' Hne
             (removes_dropped_newline_free trim _ _ Hrem Hfree)).
  now rewrite (removes_dropped_filter trim _ _ Hrem).
Qed.

Lemma NewJsonFromFile_strips_comments_witness :
  NewJsonFromFile Unmarshal_string ReadFile_two TrimSpace_ascii ∅ "plain.json"
  = NewJsonFromFile Unmarshal_string ReadFile_two TrimSpace_ascii ∅
      "commented.json".
Proof.
  apply (proj2 (NewJsonFromFile_strips_comments Unmarshal_string ReadFile_two
                  TrimSpace_ascii ∅ "commented.json" _ eq_refl)
           commented_lines plain_lines "plain.json").
  - apply string_of_list_byte_of_string.
  - reflexivity.
  - unfold commented_lines, plain_lines.
    apply removes_keep, removes_skip; [reflexivity|].
    apply removes_skip; [reflexivity|].
    apply removes_keep, removes_keep, removes_nil.
  - discriminate.
  - reflexivity.
Defined.

(** ** The scenarios of the specification *)

Example scenario_path_index_int :
  bind_outcome
    (GetIndex (GetPath heap_nested (mkJson (VMap (Some 1%positive))) ["a"; "b"]) 1)
    (fun j => Returns (Int unrepresentable_amd64 j))
  = Returns (2, None).
Proof. vm_compute. reflexivity. Qed.

Example scenario_empty_object :
  IsNull (<[1%positive := ∅]> ∅) (mkJson (VMap (Some 1%positive))) = true
  /\ Count (<[1%positive := ∅]> ∅) (mkJson (VMap (Some 1%positive))) = (0, None).
Proof. split; vm_compute; reflexivity. Qed.

Example scenario_must_int :
  MustInt unrepresentable_amd64 (mkJson (VString "hi")) [] = Returns 0
  /\ MustInt unrepresentable_amd64 (mkJson (VString "hi")) [42] = Returns 42
  /\ MustInt unrepresentable_amd64 (mkJson (VString "hi")) [1; 2]
     = Panics "MustInt() received too many arguments".
Proof. repeat split. Qed.

Example scenario_to_string :
  ToString Marshal_fixed heap_nested (mkJson (VMap (Some 1%positive)))
  = ("{}"%string, None)
  /\ ToString Marshal_fixed heap_nested (mkJson (VMap (Some 3%positive)))
     = (EmptyString, Some (ErrorNew "data is null")).
Proof. split; vm_compute; reflexivity. Qed.

Example scenario_comment_line :
  TrimSpace_ascii "  # comment" = "# comment"%string
  /\ strip_comments TrimSpace_ascii
       (String.concat newline_string commented_lines) = "[80, 8080]"%string.
Proof. split; vm_compute; reflexivity. Qed.

(** * Further properties *)

(** ** The heap under a write *)

Lemma map_contents_insert_same (h : heap) (l : loc) (c : gmap string value) :
  map_contents (<[l := c]> h) (Some l) = c.
Proof. cbn [map_contents]. now rewrite lookup_insert_eq. Qed.

Lemma map_contents_insert_other (h : heap) (l : loc) (c : gmap string value)
    (m : option loc) :
  m <> Some l -> map_contents (<[l := c]> h) m = map_contents h m.
Proof.
  intros Hm. destruct m as [l'|]; [|reflexivity]. cbn [map_contents].
  rewrite lookup_insert_ne; [reflexivity|congruence].
Qed.

(** A write that changes nothing at [key'] is not seen by a lookup of
    [key'], whatever map the lookup goes to. *)
Lemma map_index_insert_agree (h : heap) (l : loc) (c : gmap string value)
    (m : option loc) (key' : string) :
  c !! key' = map_contents h (Some l) !! key' ->
  map_index (<[l := c]> h) m key' = map_index h m key'.
Proof.
  intros Hc. unfold map_index.
  destruct (decide (m = Some l)) as [->|Hm].
  - now rewrite map_contents_insert_same.
  - now rewrite map_contents_insert_other.
Qed.

Lemma Get_lookup (h : heap) (j : Json) (key : string) :
  Get h j key = mkJson (default VNil (map_index h (fst (Map j)) key)).
Proof.
  unfold Get, Map. destruct (data j); try reflexivity.
  cbn [fst]. now destruct (map_index h m key).
Qed.

Lemma CheckGet_lookup (h : heap) (j : Json) (key : string) :
  CheckGet h j key =
  match map_index h (fst (Map j)) key with
  | Some val => (Some (mkJson val), true)
  | None => (None, false)
  end.
Proof. unfold CheckGet, Map. destruct (data j); reflexivity. Qed.

(** What a returning Set did. *)
Lemma Set_returns (h h' : heap) (j : Json) (key : string) (v : value) :
  Set_ h j key v = Returns h' ->
  ((forall m, data j <> VMap m) /\ h' = h)
  \/ exists l, data j = VMap (Some l) /\ v <> VJson None
               /\ h' = <[l := <[key := stored v]> (map_contents h (Some l))]> h.
Proof.
  unfold Set_, Map. destruct (data j) as [|[l|]| | | | | | | |] eqn:Hd;
    try (intros [= <-]; left; split; [intros m; discriminate|reflexivity]).
  - intros Hset. right. exists l. split; [reflexivity|].
    destruct v as [| | | | | | | |[d|]|]; cbn in Hset; try discriminate;
      injection Hset as <-; (split; [discriminate|reflexivity]).
  - destruct v as [| | | | | | | |[d|]|]; cbn; discriminate.
Qed.

(** ** GetIndex *)

(** X1: GetIndex panics exactly when the receiver holds a sequence and the
    index is negative; otherwise it returns the element at the index, or
    the null placeholder past the end and on every other held value. *)
Theorem GetIndex_cases (j : Json) (index : Z) :
  (panics (GetIndex j index) = true <->
   (exists a, data j = VArray a) /\ index < 0)
  /\ match data j with
     | VArray a =>
         if index <? 0 then GetIndex j index = Panics "index out of range"
         else GetIndex j index
              = Returns (mkJson (default VNil (a !! Z.to_nat index)))
     | _ => GetIndex j index = Returns (mkJson VNil)
     end.
Proof.
  assert (Harr : forall a, GetIndex (mkJson (VArray a)) index =
            if index <? 0 then Panics "index out of range"
            else Returns (mkJson (default VNil (a !! Z.to_nat index)))).
  { intros a. destruct (Z.ltb_spec index 0) as [Hneg|Hpos].
    - now apply GetIndex_negative.
    - destruct (a !! Z.to_nat index) as [v|] eqn:Hv.
      + now apply GetIndex_in_range.
      + apply GetIndex_beyond. apply lookup_ge_None in Hv. lia. }
  destruct j as [d]. cbn [data].
  split.
  - destruct d; try (split; [discriminate | intros [[a' Ha] _]; discriminate]).
    rewrite Harr. destruct (Z.ltb_spec index 0) as [Hneg|Hpos]; cbn [panics].
    + split; [eauto | reflexivity].
    + split; [discriminate | intros [_ Hlt]; lia].
  - destruct d; try reflexivity. rewrite Harr.
    now destruct (index <? 0).
Qed.

(** ** GetPath *)

Lemma GetPath_from_app (h : heap) (j : Json) (branch1 branch2 : list string) :
  GetPath_from h j (branch1 ++ branch2)
  = GetPath_from h (GetPath_from h j branch1) branch2.
Proof. rewrite !GetPath_from_fold. apply fold_left_app. Qed.

(** X2: GetPath over a path in two parts is GetPath over the first part and
    then GetPath over the second from there. *)
Theorem GetPath_app (h : heap) (j : Json) (branch1 branch2 : list string) :
  GetPath h j (branch1 ++ branch2) = GetPath h (GetPath h j branch1) branch2.
Proof. apply GetPath_from_app. Qed.

Lemma GetPath_from_not_map (h : heap) (j : Json) (key : string)
    (rest : list string) :
  (forall m, data j <> VMap m) -> GetPath_from h j (key :: rest) = mkJson VNil.
Proof. intros Hj. cbn [GetPath_from]. now rewrite (Map_error j Hj). Qed.

(** X3: Once the value reached is not a mapping, every longer path ends in the
    null placeholder. *)
Theorem GetPath_stops_at_non_map (h : heap) (j : Json)
    (branch1 branch2 : list string) :
  (forall m, data (GetPath h j branch1) <> VMap m) ->
  branch2 <> [] ->
  GetPath h j (branch1 ++ branch2) = mkJson VNil.
Proof.
  intros Hmid Hne. unfold GetPath in *. rewrite GetPath_from_app.
  destruct branch2 as [|key rest]; [congruence|].
  now apply GetPath_from_not_map.
Qed.

Lemma GetPath_stops_at_non_map_witness :
  GetPath heap_nested (mkJson (VMap (Some 1%positive)))
    (["a"; "b"] ++ ["c"; "d"]) = mkJson VNil.
Proof.
  apply (GetPath_stops_at_non_map heap_nested (mkJson (VMap (Some 1%positive)))
           ["a"; "b"] ["c"; "d"]).
  - intros m. vm_compute. discriminate.
  - discriminate.
Defined.

(** ** CheckGet and Get on every receiver *)

(** X4: On every receiver CheckGet returns either a wrapper with true, and then
    it is the wrapper Get returns, or the nil pointer with false, and then
    Get returns the null placeholder. *)
Theorem CheckGet_matches_Get (h : heap) (j : Json) (key : string) :
  match CheckGet h j key with
  | (Some r, true) => Get h j key = r
  | (None, false) => Get h j key = mkJson VNil
  | _ => False
  end.
Proof.
  rewrite CheckGet_lookup, Get_lookup.
  now destruct (map_index h (fst (Map j)) key).
Qed.

(** ** Delete *)

(** X6: after Delete(key), on every receiver and whether or not the key was
    there, Get(key) returns the null placeholder and CheckGet(key) reports
    false; Delete returns its receiver. *)
Theorem Delete_then_absent (h : heap) (j : Json) (key : string) :
  Get (fst (Delete h j key)) j key = mkJson VNil
  /\ CheckGet (fst (Delete h j key)) j key = (None, false)
  /\ snd (Delete h j key) = j.
Proof.
  assert (Hgone : map_index (fst (Delete h j key)) (fst (Map j)) key = None).
  { unfold Delete, Map. destruct (data j) as [|[l|]| | | | | | | |];
      try reflexivity.
    cbn [fst]. destruct (map_index h (Some l) key) eqn:Hkey; cbn [fst].
    - unfold map_delete, map_index. rewrite map_contents_insert_same.
      apply lookup_delete_eq.
    - exact Hkey. }
  rewrite Get_lookup, CheckGet_lookup, Hgone. repeat split.
  unfold Delete. destruct (Map j) as [m [e|]]; [reflexivity|].
  now destruct (map_index h m key).
Qed.

(** X7: Delete(key) changes no other key: Get(key') with key' other than
    key gives the same before and after, through every wrapper. *)
Theorem Delete_other_key (h : heap) (j j' : Json) (key key' : string) :
  key <> key' ->
  Get (fst (Delete h j key)) j' key' = Get h j' key'.
Proof.
  intros Hne. rewrite !Get_lookup. f_equal. f_equal.
  unfold Delete, Map. destruct (data j) as [|[l|]| | | | | | | |];
    try reflexivity.
  cbn [fst]. destruct (map_index h (Some l) key); cbn [fst]; [|reflexivity].
  unfold map_delete. apply map_index_insert_agree.
  now apply lookup_delete_ne.
Qed.

Lemma Delete_other_key_witness :
  Get (fst (Delete heap_nested (mkJson (VMap (Some 1%positive))) "z"))
      (mkJson (VMap (Some 1%positive))) "a"
  = Get heap_nested (mkJson (VMap (Some 1%positive))) "a".
Proof.
  apply (Delete_other_key heap_nested (mkJson (VMap (Some 1%positive)))
           (mkJson (VMap (Some 1%positive))) "z" "a").
  discriminate.
Defined.


(** ** Set *)

(** X9: a Set(k, v) that returns changes no other key: Get(k') with k'
    other than k gives the same before and after, through every wrapper. *)
Theorem Set_other_key (h h' : heap) (j j' : Json) (k k' : string) (v : value) :
  Set_ h j k v = Returns h' -> k <> k' ->
  Get h' j' k' = Get h j' k'.
Proof.
  intros Hset Hne. rewrite !Get_lookup. f_equal. f_equal.
  destruct (Set_returns _ _ _ _ _ Hset) as [[_ ->]|(l & _ & _ & ->)];
    [reflexivity|].
  apply map_index_insert_agree. now apply lookup_insert_ne.
Qed.

Lemma Set_other_key_witness :
  Get (<[2%positive := <["c"%string := VBool true]>
                         (map_contents heap_nested (Some 2%positive))]>
         heap_nested)
      (mkJson (VMap (Some 2%positive))) "b"
  = Get heap_nested (mkJson (VMap (Some 2%positive))) "b".
Proof.
  apply (Set_other_key heap_nested _ (mkJson (VMap (Some 2%positive)))
           (mkJson (VMap (Some 2%positive))) "c" "b" (VBool true)).
  - reflexivity.
  - discriminate.
Defined.

(** X10: a Set(k, v) that returns on a receiver that holds a mapping raises
    Count by one when k was absent and leaves it when k was present, and
    IsNull of the receiver is false afterwards. *)
Theorem Set_Count (h h' : heap) (m : option loc) (k : string) (v : value) :
  Set_ h (mkJson (VMap m)) k v = Returns h' ->
  Count h' (mkJson (VMap m))
  = (fst (Count h (mkJson (VMap m)))
     + (if snd (CheckGet h (mkJson (VMap m)) k) then 0 else 1), None)
  /\ IsNull h' (mkJson (VMap m)) = false.
Proof.
  intros Hset.
  destruct (Set_returns _ _ _ _ _ Hset) as [[Hno _]|(l & Hl & _ & ->)];
    [now destruct (Hno m)|].
  injection Hl as ->.
  unfold Count, IsNull, CheckGet. cbn [Map data fst snd]. unfold map_len.
  rewrite map_contents_insert_same. unfold map_index.
  destruct (map_contents h (Some l) !! k) as [old|] eqn:Hk; cbn [snd].
  - assert (Hsome : is_Some (map_contents h (Some l) !! k)) by eauto.
    rewrite (map_size_insert_Some k (stored v) _ Hsome).
    assert (size (map_contents h (Some l)) <> 0%nat)
      by (apply map_size_ne_0_lookup; eauto).
    split; [f_equal; lia|]. apply Z.eqb_neq. lia.
  - rewrite (map_size_insert_None k (stored v) _ Hk).
    split; [f_equal; lia|]. apply Z.eqb_neq. lia.
Qed.

Lemma Set_Count_witness :
  Count (<[2%positive := <["c"%string := VBool true]>
                           (map_contents heap_nested (Some 2%positive))]>
           heap_nested) (mkJson (VMap (Some 2%positive)))
  = (fst (Count heap_nested (mkJson (VMap (Some 2%positive))))
     + (if snd (CheckGet heap_nested (mkJson (VMap (Some 2%positive))) "c")
        then 0 else 1), None).
Proof.
  apply (proj1 (Set_Count heap_nested _ (Some 2%positive) "c" (VBool true)
                  eq_refl)).
Defined.

Lemma Set_seen_from_parent_witness :
  exists h', Set_ heap_nested
               (Get heap_nested (mkJson (VMap (Some 1%positive))) "a")
               "c" (VBool true) = Returns h'
             /\ GetPath h' (mkJson (VMap (Some 1%positive))) ["a"; "c"]
                = mkJson (VBool true).
Proof.
  apply (Set_seen_from_parent heap_nested 1%positive 2%positive "a" "c"
           (VBool true)).
  - reflexivity.
  - discriminate.
  - discriminate.
Defined.

(** X11: Set of a key to the receiver itself makes the map its own entry:
    afterwards a path may pass through that key any number of times and
    reaches what the rest of the path reaches. *)
Theorem Set_self_makes_cycle (h : heap) (l : loc) (key : string) :
  let j := mkJson (VMap (Some l)) in
  exists h', Set_ h j key (VJson (Some (GetData j))) = Returns h'
             /\ forall n branch,
                 GetPath h' j (repeat key n ++ branch) = GetPath h' j branch.
Proof.
  intros j. subst j. eexists. split; [reflexivity|].
  intros n branch. induction n as [|n IH]; [reflexivity|].
  rewrite <- IH. unfold GetPath.
  cbn [repeat app GetPath_from stored GetData data]. rewrite Map_of_map.
  now rewrite map_index_assign.
Qed.

(** X12: of two Sets of one key the last one wins, and the first leaves no
    trace: the heap is the one that the second Set alone gives. *)
Theorem Set_last_write_wins (h : heap) (j : Json) (k : string) (v1 v2 : value) :
  v1 <> VJson None -> v2 <> VJson None ->
  bind_outcome (Set_ h j k v1) (fun h1 => Set_ h1 j k v2) = Set_ h j k v2.
Proof.
  intros Hv1 Hv2. unfold Set_, Map.
  destruct (data j) as [|[l|]| | | | | | | |]; try reflexivity.
  - rewrite (unwrap_Json_stored v1 Hv1), (unwrap_Json_stored v2 Hv2).
    cbn [bind_outcome map_assign]. rewrite map_contents_insert_same.
    now rewrite !insert_insert_eq.
  - now rewrite (unwrap_Json_stored v1 Hv1), (unwrap_Json_stored v2 Hv2).
Qed.

Lemma Set_last_write_wins_witness :
  bind_outcome (Set_ heap_nested (mkJson (VMap (Some 2%positive))) "b" VNil)
    (fun h1 => Set_ h1 (mkJson (VMap (Some 2%positive))) "b" (VBool true))
  = Set_ heap_nested (mkJson (VMap (Some 2%positive))) "b" (VBool true).
Proof.
  apply (Set_last_write_wins heap_nested (mkJson (VMap (Some 2%positive)))
           "b" VNil (VBool true)); discriminate.
Defined.

(** ** The type assertions *)

(** X13: of the assertions Map, Array, Bool, String and Float64 at most one
    succeeds on a held value, and none on nil data. *)
Theorem assertions_exclusive (j : Json) :
  (Nat.b2n (succeeded (Map j)) + Nat.b2n (succeeded (Array j))
   + Nat.b2n (succeeded (Bool j)) + Nat.b2n (succeeded (String_ j))
   + Nat.b2n (succeeded (Float64 j)) <= 1)%nat
  /\ match data j with
     | VNil | VInt _ | VInt64 _ | VJson _ | VOther _ =>
         succeeded (Map j) = false /\ succeeded (Array j) = false
         /\ succeeded (Bool j) = false /\ succeeded (String_ j) = false
         /\ succeeded (Float64 j) = false
     | _ => True
     end.
Proof.
  unfold Map, Array, Bool, String_, Float64, succeeded.
  destruct (data j); cbn; repeat split; lia.
Qed.

(** X14: Bytes succeeds exactly when String does, and its bytes are those
    of the string: read back as a string they are the result of String. *)
Theorem Bytes_of_String (j : Json) :
  succeeded (Bytes j) = succeeded (String_ j)
  /\ string_of_list_byte (fst (Bytes j)) = fst (String_ j)
  /\ (succeeded (String_ j) = true ->
      fst (Bytes j) = list_byte_of_string (fst (String_ j))).
Proof.
  unfold Bytes, String_, succeeded. destruct (data j); cbn [fst snd];
    repeat split; try discriminate.
  apply string_of_list_byte_of_string.
Qed.

Lemma Bytes_of_String_witness :
  fst (Bytes (mkJson (VString "hi")))
  = list_byte_of_string (fst (String_ (mkJson (VString "hi")))).
Proof.
  apply (proj2 (proj2 (Bytes_of_String (mkJson (VString "hi"))))).
  reflexivity.
Defined.

(** ** Int64 and the typed sequences *)

Lemma int_of_float64_range impl (f : spec_float) :
  int_min <= int_of_float64 impl f <= int_max.
Proof.
  unfold int_of_float64. destruct (trunc_float64 f) as [z|].
  - destruct (Z.leb_spec int_min z), (Z.leb_spec z int_max); cbn [andb];
      try apply wrap_int_range. lia.
  - apply wrap_int_range.
Qed.

(** X15: Int and Int64 succeed on the same held values, and there, when a
    held native integer is within the 64-bit range, they return the same
    number, which is within that range; when they fail both return -1. *)
Theorem Int_Int64_agree impl (j : Json) :
  succeeded (Int impl j) = succeeded (Int64 impl j)
  /\ (succeeded (Int impl j) = false ->
      fst (Int impl j) = -1 /\ fst (Int64 impl j) = -1)
  /\ (match data j with
      | VInt n | VInt64 n => int_min <= n <= int_max
      | _ => True
      end ->
      fst (Int impl j) = fst (Int64 impl j)
      /\ (succeeded (Int impl j) = true ->
          int_min <= fst (Int impl j) <= int_max)).
Proof.
  unfold Int, Int64, succeeded.
  destruct (data j) as [| | | | |f|n|n| |]; cbn [fst snd];
    (split; [reflexivity|]);
    (split; [intros H; try discriminate H; now split|]);
    intros Hr; (split; [|intros H; try discriminate H]);
    try reflexivity.
  - apply int_of_float64_range.
  - now rewrite wrap_int_id.
  - exact Hr.
  - now rewrite wrap_int_id.
  - now rewrite wrap_int_id.
Qed.

Lemma Int_Int64_agree_witness :
  fst (Int unrepresentable_amd64 (mkJson (VInt64 7)))
  = fst (Int64 unrepresentable_amd64 (mkJson (VInt64 7))).
Proof.
  apply (proj2 (proj2 (Int_Int64_agree unrepresentable_amd64 (mkJson (VInt64 7))))).
  cbn. unfold int_min, int_max. lia.
Defined.

Lemma copy_loop_map {A B : Type} (conv : A -> B) (arr : list A) :
  copy_loop conv arr = map conv arr.
Proof.
  unfold copy_loop.
  assert (H : forall retArr,
             fold_left (fun r a => r ++ [conv a]) arr retArr
             = retArr ++ map conv arr).
  { induction arr as [|a arr IH]; intros retArr; cbn [fold_left map].
    - now rewrite app_nil_r.
    - now rewrite IH, <- app_assoc. }
  apply H.
Qed.

Lemma StringArray_loop_strings (l retArr : list string) :
  StringArray_loop (map VString l) retArr = (retArr ++ l, None).
Proof.
  revert retArr. induction l as [|s l IH]; intros retArr;
    cbn [map StringArray_loop].
  - now rewrite app_nil_r.
  - now rewrite IH, <- app_assoc.
Qed.

Lemma StringArray_loop_success (arr : list value) :
  forall retArr r, StringArray_loop arr retArr = (r, None) ->
                   exists l, arr = map VString l /\ r = retArr ++ l.
Proof.
  induction arr as [|a arr IH]; intros retArr r; cbn [StringArray_loop].
  - intros [= <-]. exists []. now rewrite app_nil_r.
  - destruct a; try discriminate. intros Hloop.
    destruct (IH _ _ Hloop) as (l & -> & ->).
    exists (s :: l). now rewrite <- app_assoc.
Qed.

Lemma StringArray_loop_failure (arr : list value) :
  forall retArr,
    snd (StringArray_loop arr retArr) = None
    \/ StringArray_loop arr retArr
       = ([], Some (ErrorNew "type assertion to string failed")).
Proof.
  induction arr as [|a arr IH]; intros retArr; cbn [StringArray_loop].
  - now left.
  - destruct a; try (now right). apply IH.
Qed.

(** X16: on a generic sequence StringArray succeeds exactly when every
    element is a string, and then returns those strings in their order; a
    single other element makes it return the nil slice and the error of the
    element.  On a native []string it returns a copy.  On every other held
    value, nil, a map, a bool, a string, a number or a wrapper pointer, it
    returns the nil slice and the error of the assertion to []string. *)
Theorem StringArray_all_or_nothing other_strings (j : Json) :
  match data j with
  | VArray a =>
      (forall l, StringArray other_strings j = (l, None) <-> a = map VString l)
      /\ (succeeded (StringArray other_strings j) = true
          \/ StringArray other_strings j
             = ([], Some (ErrorNew "type assertion to string failed")))
  | VOther tag =>
      StringArray other_strings j
      = match other_strings tag with
        | Some arr => (arr, None)
        | None => ([], Some (ErrorNew "type assertion to []string failed"))
        end
  | _ =>
      StringArray other_strings j
      = ([], Some (ErrorNew "type assertion to []string failed"))
  end.
Proof.
  unfold StringArray. destruct (data j) as [| |a| | | | | | |tag];
    try reflexivity.
  - split.
    + intros l. split.
      * intros Hloop. destruct (StringArray_loop_success _ _ _ Hloop)
          as (l' & -> & ->). reflexivity.
      * intros ->. apply StringArray_loop_strings.
    + unfold succeeded.
      destruct (StringArray_loop_failure a []) as [Hok| ->]; [|now right].
      left. now rewrite Hok.
  - destruct (other_strings tag); [|reflexivity].
    now rewrite copy_loop_map, map_id.
Qed.

Lemma IntArray_loop_floats (conv : spec_float -> Z) (fs : list spec_float)
    (retArr : list Z) :
  IntArray_loop conv (map VFloat64 fs) retArr = (retArr ++ map conv fs, None).
Proof.
  revert retArr. induction fs as [|f fs IH]; intros retArr;
    cbn [map IntArray_loop].
  - now rewrite app_nil_r.
  - now rewrite IH, <- app_assoc.
Qed.

Lemma IntArray_loop_success (conv : spec_float -> Z) (arr : list value) :
  forall retArr r, IntArray_loop conv arr retArr = (r, None) ->
                   exists fs, arr = map VFloat64 fs /\ r = retArr ++ map conv fs.
Proof.
  induction arr as [|a arr IH]; intros retArr r; cbn [IntArray_loop].
  - intros [= <-]. exists []. now rewrite app_nil_r.
  - destruct a; try discriminate. intros Hloop.
    destruct (IH _ _ Hloop) as (fs & -> & ->).
    exists (f :: fs). now rewrite <- app_assoc.
Qed.

(** X17: when Int64Array succeeds on a generic sequence, every element is a
    float64, the result is as long as the sequence, and its element i is
    what GetIndex(i).Int64() returns. *)
Theorem Int64Array_elements impl other_int64s other_ints
    (a : list value) (l : list Z) :
  Int64Array impl other_int64s other_ints (mkJson (VArray a)) = (l, None) ->
  (exists fs, a = map VFloat64 fs)
  /\ length l = length a
  /\ forall i, 0 <= i < Z.of_nat (length a) ->
        exists e, GetIndex (mkJson (VArray a)) i = Returns e
                  /\ Int64 impl e = (default 0 (l !! Z.to_nat i), None)
                  /\ is_Some (l !! Z.to_nat i).
Proof.
  unfold Int64Array. cbn [data]. intros Hloop.
  destruct (IntArray_loop_success _ _ _ _ Hloop) as (fs & -> & ->).
  cbn [app]. split; [eauto|]. split; [now rewrite !length_map|].
  intros i Hi. rewrite length_map in Hi.
  destruct (lookup_lt_is_Some_2 fs (Z.to_nat i) ltac:(lia)) as [f Hf].
  exists (mkJson (VFloat64 f)). split; [|split].
  - apply GetIndex_in_range; [lia|]. now rewrite list_lookup_fmap, Hf.
  - unfold Int64. cbn [data]. now rewrite list_lookup_fmap, Hf.
  - rewrite list_lookup_fmap, Hf. eauto.
Qed.

Lemma Int64Array_elements_witness :
  length [1; 2; 3] = length [VFloat64 (float64_of_Z 1);
                             VFloat64 (float64_of_Z 2);
                             VFloat64 (float64_of_Z 3)].
Proof.
  apply (Int64Array_elements unrepresentable_amd64 (fun _ => None)
           (fun _ => None)
           [VFloat64 (float64_of_Z 1); VFloat64 (float64_of_Z 2);
            VFloat64 (float64_of_Z 3)] [1; 2; 3]).
  vm_compute. reflexivity.
Defined.

(** X18: IntArray and Int64Array succeed on the same held values, and on a
    generic sequence they return the same numbers. *)
Theorem IntArray_Int64Array_agree impl other_int64s other_ints (j : Json) :
  succeeded (IntArray impl other_int64s other_ints j)
  = succeeded (Int64Array impl other_int64s other_ints j)
  /\ match data j with
     | VArray _ =>
         IntArray impl other_int64s other_ints j
         = Int64Array impl other_int64s other_ints j
     | _ =>
         length (fst (IntArray impl other_int64s other_ints j))
         = length (fst (Int64Array impl other_int64s other_ints j))
     end.
Proof.
  unfold IntArray, Int64Array, succeeded. destruct (data j); try (now split).
  destruct (other_int64s tag) as [arr|]; [|destruct (other_ints tag) as [arr|]];
    cbn [fst snd]; split; try reflexivity;
    now rewrite !copy_loop_map, !length_map.
Qed.

(** ** The defaulting accessors *)

(** X19: each of the six defaulting accessors panics exactly when it is
    given more than one default, whatever the receiver holds, also when the
    held value has the asked type. *)
Theorem Must_panics_iff impl (j : Json) (arrays : list (list value))
    (maps : list (option loc)) (strings : list string) (ints int64s : list Z)
    (floats : list spec_float) :
  panics (MustArray j arrays) = Nat.ltb 1 (length arrays)
  /\ panics (MustMap j maps) = Nat.ltb 1 (length maps)
  /\ panics (MustString j strings) = Nat.ltb 1 (length strings)
  /\ panics (MustInt impl j ints) = Nat.ltb 1 (length ints)
  /\ panics (MustInt64 impl j int64s) = Nat.ltb 1 (length int64s)
  /\ panics (MustFloat64 j floats) = Nat.ltb 1 (length floats).
Proof.
  unfold MustArray, MustMap, MustString, MustInt, MustInt64, MustFloat64.
  repeat split.
  - destruct arrays as [|d [|d' rest]]; cbn [bind_outcome]; try reflexivity;
      now destruct (Array j) as [a [e|]].
  - destruct maps as [|d [|d' rest]]; cbn [bind_outcome]; try reflexivity;
      now destruct (Map j) as [a [e|]].
  - destruct strings as [|d [|d' rest]]; cbn [bind_outcome]; try reflexivity;
      now destruct (String_ j) as [a [e|]].
  - destruct ints as [|d [|d' rest]]; cbn [bind_outcome]; try reflexivity;
      now destruct (Int impl j) as [a [e|]].
  - destruct int64s as [|d [|d' rest]]; cbn [bind_outcome]; try reflexivity;
      now destruct (Int64 impl j) as [a [e|]].
  - destruct floats as [|d [|d' rest]]; cbn [bind_outcome]; try reflexivity;
      now destruct (Float64 j) as [a [e|]].
Qed.


(** ** After an absent key *)

(** X21: the wrapper that Get returns for a key CheckGet does not find is
    safe to go on with: Get and GetIndex on it return the null placeholder,
    also at a negative index, IsNull is true, Count fails with -1, ToString
    fails with the "data is null" error, and every defaulting accessor
    returns its default. *)
Theorem absent_key_chain impl marshal (h : heap) (j : Json) (key : string) :
  snd (CheckGet h j key) = false ->
  let r := Get h j key in
  (forall k, Get h r k = mkJson VNil)
  /\ (forall i, GetIndex r i = Returns (mkJson VNil))
  /\ (forall branch, GetPath h r branch = mkJson VNil)
  /\ IsNull h r = true
  /\ fst (Count h r) = -1
  /\ ToString marshal h r = (EmptyString, Some (ErrorNew "data is null"))
  /\ (forall d, MustArray r [d] = Returns d)
  /\ (forall d, MustMap r [d] = Returns d)
  /\ (forall d, MustString r [d] = Returns d)
  /\ (forall d, MustInt impl r [d] = Returns d)
  /\ (forall d, MustInt64 impl r [d] = Returns d)
  /\ (forall d, MustFloat64 r [d] = Returns d).
Proof.
  intros Habs r.
  assert (Hr : r = mkJson VNil).
  { subst r. rewrite CheckGet_lookup in Habs. rewrite Get_lookup.
    now destruct (map_index h (fst (Map j)) key). }
  rewrite Hr. repeat split.
  intros branch. unfold GetPath. rewrite GetPath_from_fold.
  apply fold_Get_nil.
Qed.

Lemma absent_key_chain_witness :
  MustString (Get heap_nested (mkJson (VMap (Some 1%positive))) "y") ["default"]
  = Returns "default"%string.
Proof.
  apply (absent_key_chain unrepresentable_amd64 Marshal_fixed heap_nested
           (mkJson (VMap (Some 1%positive))) "y" eq_refl).
Defined.

(** ** The loader *)

(** X22: NewJson and NewJsonFromFile return either a wrapper and no error
    or the nil pointer and an error; when the file cannot be read
    NewJsonFromFile passes the error of the read on and decodes nothing. *)
Theorem NewJsonFromFile_result unmarshal readfile trim
    (h : heap) (body : list Byte.byte) (filename : string) :
  match NewJson unmarshal h body with
  | (_, Some _, None) | (_, None, Some _) => True
  | _ => False
  end
  /\ match NewJsonFromFile unmarshal readfile trim h filename with
     | (_, Some _, None) | (_, None, Some _) => True
     | _ => False
     end
  /\ match readfile filename with
     | (_, Some e) =>
         NewJsonFromFile unmarshal readfile trim h filename
         = (h, None, Some (ErrorExternal e))
     | (_, None) => True
     end.
Proof.
  assert (HNew : forall b, match NewJson unmarshal h b with
                           | (_, Some _, None) | (_, None, Some _) => True
                           | _ => False
                           end).
  { intros b. unfold NewJson. now destruct (unmarshal h b) as [[h' d] [e|]]. }
  split; [apply HNew|]. unfold NewJsonFromFile.
  destruct (readfile filename) as [stream [e|]]; cbn [external].
  - now split.
  - split; [apply HNew|exact I].
Qed.

Lemma concat_cons_cons (sep x y : string) (ys : list string) :
  String.concat sep (x :: y :: ys)
  = String.append x (String.append sep (String.concat sep (y :: ys))).
Proof. reflexivity. Qed.

Lemma Split_newline_nonempty (s : string) : Split_newline s <> [].
Proof.
  destruct s as [|c s]; cbn [Split_newline]; [discriminate|].
  destruct (Ascii.eqb c newline); [discriminate|].
  destruct (Split_newline s); discriminate.
Qed.

Lemma Split_newline_rejoin (content : string) :
  String.concat newline_string (Split_newline content) = content.
Proof.
  induction content as [|c s IH]; [reflexivity|]. cbn [Split_newline].
  pose proof (Split_newline_nonempty s) as Hne.
  destruct (Ascii.eqb_spec c newline) as [->|Hc].
  - destruct (Split_newline s) as [|y ys]; [congruence|].
    rewrite concat_cons_cons, IH. reflexivity.
  - destruct (Split_newline s) as [|y [|y' ys]]; [congruence| |].
    + cbn [String.concat] in *. now rewrite IH.
    + rewrite concat_cons_cons in *. rewrite append_cons. now rewrite IH.
Qed.

Lemma Split_newline_free (content : string) :
  forallb newline_free (Split_newline content) = true.
Proof.
  induction content as [|c s IH]; [reflexivity|]. cbn [Split_newline].
  destruct (Ascii.eqb c newline) eqn:Hc; [exact IH|].
  destruct (Split_newline s) as [|y ys]; cbn [forallb newline_free] in *;
    now rewrite Hc.
Qed.

(** X23: splitting at the line breaks loses nothing: the lines have no
    line break inside, there is at least one, and joined with line breaks
    they give the content back. *)
Theorem Split_newline_join (content : string) :
  String.concat newline_string (Split_newline content) = content
  /\ forallb newline_free (Split_newline content) = true
  /\ Split_newline content <> [].
Proof.
  split; [apply Split_newline_rejoin|].
  split; [apply Split_newline_free | apply Split_newline_nonempty].
Qed.

Lemma kept_line_nonempty (s : string) : kept_line s = true -> s <> EmptyString.
Proof. intros Hk ->. discriminate Hk. Qed.

Lemma concat_kept_empty (ls : list string) :
  Forall (fun s => kept_line s = true) ls ->
  String.concat EmptyString ls = EmptyString -> ls = [].
Proof.
  intros Hall. destruct Hall as [|s ls Hs _]; [reflexivity|].
  rewrite concat_empty_cons. intros Hcat.
  destruct s as [|c s]; [now apply kept_line_nonempty in Hs|].
  rewrite append_cons in Hcat. discriminate.
Qed.

Lemma filter_kept_nil (trim : string -> string) (ls : list string) :
  List.filter kept_line (map trim ls) = []
  <-> Forall (fun l => kept_line (trim l) = false) ls.
Proof.
  induction ls as [|l ls IH]; cbn [map List.filter].
  - split; [constructor|reflexivity].
  - destruct (kept_line (trim l)) eqn:Hl.
    + split; [discriminate|]. intros Hall. inversion Hall; congruence.
    + rewrite IH. split; [now constructor|]. now inversion 1.
Qed.

(** X24: the buffer given to the decoder is empty exactly when every line
    of the content is dropped, being empty or a comment once trimmed. *)
Theorem strip_comments_empty_iff (trim : string -> string) (content : string) :
  strip_comments trim content = EmptyString
  <-> Forall (fun l => kept_line (trim l) = false) (Split_newline content).
Proof.
  rewrite strip_comments_refines. unfold strip_comments_spec.
  rewrite <- filter_kept_nil. split.
  - apply concat_kept_empty. apply Forall_forall. intros s Hs.
    apply list_elem_of_In, filter_In in Hs. tauto.
  - now intros ->.
Qed.

Lemma newline_free_append (s t : string) :
  newline_free (String.append s t) = newline_free s && newline_free t.
Proof.
  induction s as [|c s IH]; [reflexivity|].
  rewrite append_cons. cbn [newline_free]. now rewrite IH, andb_assoc.
Qed.

Lemma trim_left_newline_free (s : string) :
  newline_free s = true -> newline_free (trim_left s) = true.
Proof.
  induction s as [|c s IH]; cbn [trim_left newline_free]; [reflexivity|].
  destruct (is_space c); [|now cbn [newline_free]].
  rewrite andb_true_iff. intros [_ Hs]. now apply IH.
Qed.

Lemma trim_right_newline_free (s : string) :
  newline_free s = true -> newline_free (trim_right s) = true.
Proof.
  induction s as [|c s IH]; cbn [trim_right newline_free]; [reflexivity|].
  rewrite andb_true_iff. intros [Hc Hs]. specialize (IH Hs).
  destruct (trim_right s) as [|c' kept].
  - destruct (is_space c); cbn [newline_free]; [reflexivity|].
    now rewrite Hc.
  - cbn [newline_free] in *. now rewrite Hc, IH.
Qed.

Lemma TrimSpace_ascii_newline_free (s : string) :
  newline_free s = true -> newline_free (TrimSpace_ascii s) = true.
Proof.
  intros Hs. now apply trim_right_newline_free, trim_left_newline_free.
Qed.

(** X25: the buffer given to the decoder has no line break, when trimming
    a line puts none in: tokens on lines that follow each other are glued
    together. *)
Theorem strip_comments_newline_free (trim : string -> string) (content : string) :
  (forall s, newline_free s = true -> newline_free (trim s) = true) ->
  newline_free (strip_comments trim content) = true.
Proof.
  intros Htrim. rewrite strip_comments_refines. unfold strip_comments_spec.
  pose proof (Split_newline_free content) as Hfree.
  induction (Split_newline content) as [|l ls IH];
    cbn [map List.filter]; [reflexivity|].
  cbn [forallb] in Hfree. apply andb_true_iff in Hfree as [Hl Hls].
  destruct (kept_line (trim l)); [|now apply IH].
  rewrite concat_empty_cons, newline_free_append, (Htrim _ Hl). now apply IH.
Qed.

Lemma strip_comments_newline_free_witness :
  newline_free (strip_comments TrimSpace_ascii
                  (String.concat newline_string commented_lines)) = true.
Proof.
  apply (strip_comments_newline_free TrimSpace_ascii).
  exact TrimSpace_ascii_newline_free.
Defined.

(** ** Encode against ToString *)

(** X26: Encode does not look at IsNull and never returns the error
    "data is null": its error is the one of the codec.  Where IsNull is
    false ToString has the error of Encode and, when there is none, the
    bytes of Encode as a string, from which they can be read back. *)
Theorem Encode_vs_ToString marshal (h : heap) (j : Json) :
  (forall msg, snd (Encode marshal h j) <> Some (ErrorNew msg))
  /\ (IsNull h j = false ->
      snd (ToString marshal h j) = snd (Encode marshal h j)
      /\ (succeeded (Encode marshal h j) = true ->
          fst (ToString marshal h j)
          = string_of_list_byte (fst (Encode marshal h j))
          /\ list_byte_of_string (fst (ToString marshal h j))
             = fst (Encode marshal h j))).
Proof.
  unfold Encode, ToString, MarshalJSON, succeeded. split.
  - intros msg. destruct (marshal h (data j)) as [b [e|]]; discriminate.
  - intros ->. destruct (marshal h (data j)) as [b [e|]]; cbn [fst snd external].
    + split; [reflexivity|discriminate].
    + split; [reflexivity|]. intros _. split; [reflexivity|].
      apply list_byte_of_string_of_list_byte.
Qed.

Lemma Encode_vs_ToString_witness :
  snd (ToString Marshal_fixed heap_nested (mkJson (VMap (Some 1%positive))))
  = snd (Encode Marshal_fixed heap_nested (mkJson (VMap (Some 1%positive)))).
Proof.
  apply (proj2 (Encode_vs_ToString Marshal_fixed heap_nested
                  (mkJson (VMap (Some 1%positive))))).
  vm_compute. reflexivity.
Defined.

(** ** Set with a wrapper *)

(** X27: Set(k, Get(k')) on a receiver that holds a map other than the nil
    map copies the entry: afterwards Get(k) holds what Get(k') held, and
    Get(k') still does, also when k' was absent or is k itself. *)
Theorem Set_copies_entry (h : heap) (l : loc) (k k' : string) :
  let j := mkJson (VMap (Some l)) in
  exists h', Set_ h j k (VJson (Some (GetData (Get h j k')))) = Returns h'
             /\ Get h' j k = Get h j k'
             /\ Get h' j k' = Get h j k'.
Proof.
  intros j. subst j. eexists. split; [reflexivity|].
  cbn [stored GetData].
  assert (Hk : Get (<[l := <[k := data (Get h (mkJson (VMap (Some l))) k')]>
                             (map_contents h (Some l))]> h)
                 (mkJson (VMap (Some l))) k
               = Get h (mkJson (VMap (Some l))) k').
  { rewrite (Get_of_map _ (Some l) k), map_index_assign. cbn [default].
    now destruct (Get h (mkJson (VMap (Some l))) k'). }
  split; [exact Hk|].
  destruct (decide (k = k')) as [<-|Hne]; [exact Hk|].
  rewrite !(Get_of_map _ (Some l) k'). f_equal. f_equal.
  apply map_index_insert_agree. now apply lookup_insert_ne.
Qed.

(** ** IsNull against Count *)

(** X28: IsNull is true exactly when the data is nil or Count returns 0
    and no error. *)
Theorem IsNull_iff_Count_zero (h : heap) (j : Json) :
  IsNull h j = true <-> data j = VNil \/ Count h j = (0, None).
Proof.
  unfold IsNull, Count, Map.
  destruct (data j); split; try (intros _; now left); try discriminate;
    try (intros [Hnil|Hcount]; discriminate).
  - reflexivity.
  - intros Hz. right. apply Z.eqb_eq in Hz. now rewrite Hz.
  - intros [Hnil|Hcount]; [discriminate|].
    injection Hcount as ->. reflexivity.
Qed.
